(** * image-editor: the readiness / save / delete lifecycle of
    [src/image-editor.js], embedded shallowly.

    The element is glue between three collaborators that live outside the
    file: the spinner ([this.$.spinner]), the file uploader
    ([this.$.uploader]) and the document store ([services]).  Their calls
    are kept as requests whose settlement is supplied by an oracle, so every
    statement below is quantified over every behaviour of the
    collaborators. *)

From stdpp Require Import base strings gmap list.
From Stdlib Require Import ZArith Lia.

Set Warnings "-register-all".

(** ** JavaScript values *)

(** The values that flow through the element: primitives and plain
    objects.  An object is a finite map from property names to values. *)
Inductive jsval : Type :=
| VUndefined
| VNull
| VBool (b : bool)
| VNum (z : Z)
| VStr (s : string)
| VObj (o : gmap string jsval).

(** One entry of the uploader's data: [{coll, doc, ext, ..., <optimized>}]. *)
Abbreviation FileRecord := (gmap string jsval).

(** [{[name]: FileRecord, ...}], keyed by the unique file name. *)
Abbreviation FileRecordSet := (gmap string (gmap string jsval)).

(** A record set seen as a value (what [event.detail] carries and what is
    written to the store). *)
Definition data_val (data : option FileRecordSet) : jsval :=
  match data with
  | None => VUndefined
  | Some d => VObj (VObj <$> d)
  end.

(** [key in obj] for a plain object. *)
Definition js_in (key : string) (obj : gmap string jsval) : bool :=
  bool_decide (is_Some (obj !! key)).

(** [Object.values(data)]. *)
Definition Object_values {A} (data : gmap string A) : list A :=
  (map_to_list data).*2.

(** ** The readiness tracker *)

(** [__computeReady(data)], lines 156-162.  [None] stands for a falsy
    [data] (undefined or null), which the first guard rejects. *)
Definition __computeReady (data : option FileRecordSet) : bool :=
  match data with
  | None => false
  | Some data =>
      let values := Object_values data in
      if Nat.eqb (length values) 0 then false
      else forallb (fun obj => js_in "optimized" obj) values
  end.

(** [__computeTempColl(coll)], lines 165-167. *)
Definition __computeTempColl (coll : string) : string :=
  coll +:+ "-editor-temp".

Example ready_empty : __computeReady (Some ∅) = false.
Proof. reflexivity. Qed.

Example ready_one :
  __computeReady (Some {[ "a" := {[ "optimized" := VStr "url" ]} ]}) = true.
Proof. vm_compute. reflexivity. Qed.

Example ready_mixed :
  __computeReady (Some (<[ "a" := {[ "optimized" := VStr "u1" ]} ]>
                         {[ "b" := {[ "name" := VStr "b" ]} ]})) = false.
Proof. vm_compute. reflexivity. Qed.

(** ** Collaborators, events and the world *)

(** How a promise settles. *)
Inductive outcome : Type :=
| Resolved (v : jsval)
| Rejected (e : jsval).

(** The promise-returning calls the element makes on its collaborators and
    on the helpers it imports. *)
Inductive request : Type :=
| SpinnerShow (text : string)              (* this.$.spinner.show(text) *)
| SpinnerHide                              (* this.$.spinner.hide() *)
| ServicesSet (coll doc : string) (data : gmap string jsval)
                                           (* services.set({coll, doc, data}) *)
| ServicesDeleteField (coll doc field : string)
                                           (* services.deleteField({coll, doc, field}) *)
| UploaderDelete (name : string)           (* this.$.uploader.delete(name) *)
| UploaderDeleteAll                        (* this.$.uploader.deleteAll() *)
| Schedule                                 (* schedule() *)
| Warn (text : string)                     (* warn(text) *)
| Clicked.                                 (* this.clicked() *)

(** What an observer of the element sees, in order.  [message], [fire],
    [console.error] and the uploader's [getData] are synchronous calls whose
    result the element does not inspect; they are taken to return
    normally. *)
Inductive event : Type :=
| Req (r : request) (o : outcome)          (* a request and how it settled *)
| Message (text : string)                  (* message(text), result dropped *)
| Fire (type : string) (detail : jsval)    (* this.fire(type, detail) *)
| ConsoleError (e : jsval)                 (* console.error(e) *)
| UploaderGetData.                         (* this.$.uploader.getData() *)

(** The element's properties together with its surroundings.  [oracle n r]
    is how the promise returned for request [r] settles when it is the
    [n]-th request made;
    [uploader_data] is the record set the uploader currently holds, which
    the element reads and never writes. *)
Record World : Type := mkWorld {
  coll : string;
  doc : string;
  field : string;
  multiple : bool;
  _data : option FileRecordSet;
  _ready : option bool;
  uploader_data : FileRecordSet;
  oracle : nat -> request -> outcome;
  requests : nat
}.

Definition tick (w : World) : World :=
  mkWorld (coll w) (doc w) (field w) (multiple w) (_data w) (_ready w)
          (uploader_data w) (oracle w) (S (requests w)).

Definition assign__data (d : option FileRecordSet) (w : World) : World :=
  mkWorld (coll w) (doc w) (field w) (multiple w) d (_ready w)
          (uploader_data w) (oracle w) (requests w).

Definition assign__ready (r : bool) (w : World) : World :=
  mkWorld (coll w) (doc w) (field w) (multiple w) (_data w) (Some r)
          (uploader_data w) (oracle w) (requests w).

(** The uploader changes what it holds (a step of the collaborator, not of
    the element). *)
Definition uploader_holds (d : FileRecordSet) (w : World) : World :=
  mkWorld (coll w) (doc w) (field w) (multiple w) (_data w) (_ready w)
          d (oracle w) (requests w).

(** ** A small monad for method bodies *)

(** A computation reads and updates the world and emits events. *)
Definition M (A : Type) : Type := World -> A * World * list event.

Definition result {A} (x : A * World * list event) : A := x.1.1.
Definition after {A} (x : A * World * list event) : World := x.1.2.
Definition events {A} (x : A * World * list event) : list event := x.2.

(** Completion of a statement list, as in the language definition:
    it falls through, returns, or throws.  A returned value is kept as the
    settlement the enclosing async function will adopt: a plain value [v]
    is [Resolved v], a returned promise is its own settlement. *)
Inductive completion : Type :=
| Normal
| Return (p : outcome)
| Throw (e : jsval).

Definition stmt : Type := M completion.

(** Make a request: the collaborator is called and hands back a promise. *)
Definition call (r : request) : M outcome :=
  fun w => let o := oracle w (requests w) r in (o, tick w, [Req r o]).

(** [await p;] as a statement. *)
Definition await (p : M outcome) : stmt :=
  fun w =>
    let '(o, w', t) := p w in
    (match o with Resolved _ => Normal | Rejected e => Throw e end, w', t).

(** [p;] where the promise is dropped. *)
Definition drop_promise (p : M outcome) : stmt :=
  fun w => let '(_, w', t) := p w in (Normal, w', t).

(** [return p;] *)
Definition return_ (p : M outcome) : stmt :=
  fun w => let '(o, w', t) := p w in (Return o, w', t).

(** [return;] *)
Definition return_undefined : stmt :=
  fun w => (Return (Resolved VUndefined), w, []).

(** A synchronous call whose result is not used. *)
Definition effect (e : event) : stmt :=
  fun w => (Normal, w, [e]).

(** Read [this]. *)
Definition this {A} (k : World -> M A) : M A :=
  fun w => k w w.

Definition and_then (s1 s2 : stmt) : stmt :=
  fun w =>
    let '(c1, w1, t1) := s1 w in
    match c1 with
    | Normal => let '(c2, w2, t2) := s2 w1 in (c2, w2, t1 ++ t2)
    | _ => (c1, w1, t1)
    end.

Notation "s1 >>> s2" := (and_then s1 s2) (at level 65, right associativity).

(** [try { body } catch (error) { handler }] *)
Definition try_catch (body : stmt) (handler : jsval -> stmt) : stmt :=
  fun w =>
    let '(c1, w1, t1) := body w in
    match c1 with
    | Throw e => let '(c2, w2, t2) := handler e w1 in (c2, w2, t1 ++ t2)
    | _ => (c1, w1, t1)
    end.

(** [try { body } finally { fin }]: an abrupt completion of [fin]
    replaces the completion of [body]. *)
Definition try_finally (body fin : stmt) : stmt :=
  fun w =>
    let '(c1, w1, t1) := body w in
    let '(c2, w2, t2) := fin w1 in
    (match c2 with Normal => c1 | _ => c2 end, w2, t1 ++ t2).

Definition try_catch_finally
    (body : stmt) (handler : jsval -> stmt) (fin : stmt) : stmt :=
  try_finally (try_catch body handler) fin.

(** [async m() { body }]: the promise of one call of the method. *)
Definition async (body : stmt) : M outcome :=
  fun w =>
    let '(c, w', t) := body w in
    (match c with
     | Normal => Resolved VUndefined
     | Return p => p
     | Throw e => Rejected e
     end, w', t).

(** [error === s] for a string literal [s]. *)
Definition strict_eq_str (error : jsval) (s : string) : bool :=
  match error with
  | VStr s' => String.eqb s' s
  | _ => false
  end.

(** ** The element's methods *)

(** [__readyChanged(ready)], lines 170-172. *)
Definition __readyChanged (ready : bool) : stmt :=
  effect (Fire "image-editor-ready-changed" (VObj {[ "value" := VBool ready ]})).

(** [__delete(name)], lines 180-186. *)
Definition __delete (name : string) : M outcome :=
  this (fun w =>
    call (ServicesDeleteField (coll w) (doc w) (field w +:+ "." +:+ name))).

(** [__fileDeleted(event)], lines 190-192; [name] is [event.detail.name]. *)
Definition __fileDeleted (name : string) : stmt :=
  drop_promise (__delete name).

(** [__save()], lines 195-203. *)
Definition __save : M outcome :=
  this (fun w =>
    call (ServicesSet (coll w) (doc w) {[ field w := data_val (_data w) ]})).

(** [save()], lines 257-273. *)
Definition save : M outcome :=
  async (try_catch_finally
    (await (call (SpinnerShow "Saving...")) >>>
     await __save >>>
     this (fun w =>
       let text := if multiple w then "Images" else "Image" in
       effect (Message (text +:+ " saved."))) >>>
     effect (Fire "image-editor-save-complete" VUndefined) >>>
     await (call Schedule))
    (fun error =>
       effect (ConsoleError error) >>>
       await (call (Warn "Sorry, an unexpected error occured!")))
    (return_ (call SpinnerHide))).

(** [delete(name)], lines 218-232. *)
Definition delete (name : string) : M outcome :=
  async (try_catch_finally
    (await (call (SpinnerShow ("Deleting " +:+ name +:+ " image..."))) >>>
     await (call (UploaderDelete name)) >>>
     effect (Message (name +:+ " image deleted.")) >>>
     await (call Schedule))
    (fun error =>
       effect (ConsoleError error) >>>
       await (call (Warn "Sorry, an error occured while trying to delete the image!")))
    (return_ (call SpinnerHide))).

(** [deleteAll()], lines 235-249. *)
Definition deleteAll : M outcome :=
  async (try_catch_finally
    (await (call (SpinnerShow "Deleting images...")) >>>
     await (call UploaderDeleteAll) >>>
     effect (Message "Images deleted.") >>>
     await (call Schedule))
    (fun error =>
       effect (ConsoleError error) >>>
       await (call (Warn "Sorry, an error occured while trying to delete images!")))
    (return_ (call SpinnerHide))).

(** [getData()], lines 252-254. *)
Definition getData : M FileRecordSet :=
  fun w => (uploader_data w, w, [UploaderGetData]).

(** [__saveBtnClicked()], lines 206-215. *)
Definition __saveBtnClicked : M outcome :=
  async (try_catch
    (await (call Clicked) >>>
     await save)
    (fun error =>
       if strict_eq_str error "click debounced" then return_undefined
       else effect (ConsoleError error))).

(** ** The property layer *)

(** Modelled from the spec: the property-effects layer of the base element
    ([SpritefulElement], a Polymer element), which is not part of src.  The
    source declares [_ready] as [computed: '__computeReady(_data)'] and
    lists the observer ['__readyChanged(_ready)'] (lines 134-153); the layer
    recomputes [_ready] when [_data] is assigned and runs the observer
    when the computed value differs from the one held, the first
    computation included. *)
Definition set__data (d : option FileRecordSet) : stmt :=
  fun w =>
    let w1 := assign__data d w in
    let ready := __computeReady d in
    if bool_decide (_ready w1 = Some ready) then (Normal, w1, [])
    else __readyChanged ready (assign__ready ready w1).

(** [__fileDataChanged(event)], lines 175-177; [detail] is [event.detail]. *)
Definition __fileDataChanged (detail : option FileRecordSet) : stmt :=
  set__data detail.

(** The element before its properties are initialised: [field] and
    [multiple] hold their declared defaults, [_data] and [_ready] are not
    set yet. *)
Definition created (coll doc : string) (uploader : FileRecordSet)
    (o : nat -> request -> outcome) : World :=
  mkWorld coll doc "images" false None None uploader o 0.

(** Initialisation of [_data] with its declared default [() => ({})]. *)
Definition initialise : stmt := set__data (Some ∅).

Definition skip : stmt := fun w => (Normal, w, []).

(** A run of ['data-changed'] notifications, delivered one after another. *)
Fixpoint deliver (details : list (option FileRecordSet)) : stmt :=
  match details with
  | [] => skip
  | d :: rest => __fileDataChanged d >>> deliver rest
  end.

(** ** Reading event lists *)

Definition is_hide (e : event) : bool :=
  match e with Req SpinnerHide _ => true | _ => false end.

Definition is_show (text : string) (e : event) : bool :=
  match e with Req (SpinnerShow t) _ => String.eqb t text | _ => false end.

Definition is_fire (type : string) (e : event) : bool :=
  match e with Fire t _ => String.eqb t type | _ => false end.

Definition is_warn (e : event) : bool :=
  match e with Req (Warn _) _ => true | _ => false end.

Definition count (p : event -> bool) (t : list event) : nat :=
  length (List.filter p t).

(** The store writes of a run: where and what. *)
Definition writes (t : list event) : list (string * string * gmap string jsval) :=
  omap (fun e => match e with
                 | Req (ServicesSet c d data) _ => Some (c, d, data)
                 | _ => None
                 end) t.

(** A store write was made and its promise resolved. *)
Definition write_resolved (t : list event) : bool :=
  existsb (fun e => match e with
                    | Req (ServicesSet _ _ _) (Resolved _) => true
                    | _ => false
                    end) t.

(** A store write was made and its promise rejected with [e]. *)
Definition write_rejected (e : jsval) (t : list event) : Prop :=
  ∃ c d data, In (Req (ServicesSet c d data) (Rejected e)) t.

Definition messages (t : list event) : list string :=
  omap (fun e => match e with Message text => Some text | _ => None end) t.

Definition warnings (t : list event) : list string :=
  omap (fun e => match e with Req (Warn text) _ => Some text | _ => None end) t.

Definition logged (t : list event) : list jsval :=
  omap (fun e => match e with ConsoleError x => Some x | _ => None end) t.

(** The values carried by the ['image-editor-ready-changed'] events. *)
Definition ready_changes (t : list event) : list bool :=
  omap (fun e => match e with
                 | Fire type (VObj detail) =>
                     if String.eqb type "image-editor-ready-changed" then
                       match detail !! "value" with
                       | Some (VBool b) => Some b
                       | _ => None
                       end
                     else None
                 | _ => None
                 end) t.

(** ** Readiness *)

(** The claim's wording for readiness, kept apart from the code's: a field
    is populated when it holds something other than undefined, null or the
    empty string. *)
Definition populated (v : jsval) : bool :=
  match v with
  | VUndefined | VNull => false
  | VStr s => negb (String.eqb s "")
  | _ => true
  end.

Definition ready_as_worded (files : FileRecordSet) : Prop :=
  files ≠ ∅ ∧
  ∀ name r, files !! name = Some r →
    ∃ v, r !! "optimized" = Some v ∧ populated v = true.

Lemma Object_values_length {A} (data : gmap string A) :
  length (Object_values data) = size data.
Proof.
  unfold Object_values. rewrite length_fmap. apply length_map_to_list.
Qed.

Lemma Object_values_elem {A} (data : gmap string A) (x : A) :
  x ∈ Object_values data ↔ ∃ k, data !! k = Some x.
Proof.
  unfold Object_values. rewrite list_elem_of_fmap. split.
  - intros [[k y] [-> Hin]]. exists k. by apply elem_of_map_to_list in Hin.
  - intros [k Hk]. exists (k, x). split; [done|]. by apply elem_of_map_to_list.
Qed.

Lemma js_in_spec key (obj : gmap string jsval) :
  js_in key obj = true ↔ is_Some (obj !! key).
Proof. unfold js_in. apply bool_decide_eq_true. Qed.

Lemma computeReady_some (files : FileRecordSet) :
  __computeReady (Some files) = true ↔
  files ≠ ∅ ∧ ∀ name r, files !! name = Some r → is_Some (r !! "optimized").
Proof.
  unfold __computeReady. rewrite Object_values_length.
  destruct (Nat.eqb_spec (size files) 0) as [Hz|Hnz].
  - apply map_size_empty_iff in Hz. split; [done|]. by intros [? _].
  - rewrite forallb_forall. split.
    + intros Hall. split.
      * intros ->. by rewrite map_size_empty in Hnz.
      * intros name r Hr. apply js_in_spec, Hall.
        apply list_elem_of_In, Object_values_elem. eauto.
    + intros [_ Hall] r Hin.
      apply list_elem_of_In, Object_values_elem in Hin as [name Hr].
      apply js_in_spec. eauto.
Qed.

(** C1 (as amended): the readiness computation returns true exactly when
    the record set is non-empty and every record has an ['optimized'] key,
    whatever that key holds; a missing (falsy) set and the empty set are
    not ready. *)
Theorem computeReady_key_presence :
  __computeReady None = false ∧
  __computeReady (Some ∅) = false ∧
  ∀ files : FileRecordSet,
    __computeReady (Some files) = true ↔
    files ≠ ∅ ∧ ∀ name r, files !! name = Some r → is_Some (r !! "optimized").
Proof.
  split; [reflexivity|]. split; [reflexivity|]. apply computeReady_some.
Qed.

(** A single record without the key makes the whole set not ready. *)
Lemma computeReady_missing_key (files : FileRecordSet) name r :
  files !! name = Some r → r !! "optimized" = None →
  __computeReady (Some files) = false.
Proof.
  intros Hr Hnone. apply not_true_is_false. intros Hready.
  apply computeReady_some in Hready as [_ Hall].
  destruct (Hall name r Hr) as [v Hv]. congruence.
Qed.

(** C1 (as worded) fails: a record whose ['optimized'] key holds the empty
    string is ready for the code, and not for the claim. *)
Lemma computeReady_empty_optimized :
  __computeReady (Some {[ "a" := {[ "optimized" := VStr "" ]} ]}) = true ∧
  ¬ ready_as_worded {[ "a" := {[ "optimized" := VStr "" ]} ]}.
Proof.
  split; [vm_compute; reflexivity|].
  intros [_ Hall].
  destruct (Hall "a" {[ "optimized" := VStr "" ]}) as (v & Hv & Hp).
  - apply lookup_singleton_eq.
  - rewrite lookup_singleton_eq in Hv. injection Hv as <-. discriminate.
Qed.

(** ** Running method bodies symbolically *)

(** Unfold a method down to its requests ... *)
Ltac run :=
  cbv [save delete deleteAll __saveBtnClicked __save __delete __fileDeleted
       getData async try_catch_finally try_finally try_catch and_then await
       drop_promise return_ return_undefined effect this call
       result events after];
  cbn [fst snd coll doc field multiple _data _ready uploader_data oracle
       requests tick].

(** ... and split on how each awaited request settles. *)
Ltac settle :=
  repeat match goal with
  | |- context [match oracle ?w ?n ?r with _ => _ end] =>
      let E := fresh "E" in
      destruct (oracle w n r) eqn:E;
      cbn [fst snd coll doc field multiple _data _ready uploader_data oracle
           requests tick app]
  end.

Ltac paths := run; settle.

(** ** save() *)

(** Whatever happens, [save()] ends with the spinner's [hide()] and
    settles the way that [hide()] settles. *)
Ltac all_but_last :=
  match goal with
  | |- ∃ t : list event, ?l = t ++ [_] ∧ _ =>
      exists (removelast l); split; reflexivity
  end.

Lemma save_ends_with_hide w :
  ∃ t, events (save w) = t ++ [Req SpinnerHide (result (save w))] ∧
       count is_hide t = 0.
Proof. paths; all_but_last. Qed.

(** On the path where the store write is made and resolves. *)
Lemma save_write_resolved_shape w :
  write_resolved (events (save w)) = true →
  ∃ v1 v2 rest,
    events (save w) =
      [ Req (SpinnerShow "Saving...") (Resolved v1);
        Req (ServicesSet (coll w) (doc w) {[ field w := data_val (_data w) ]})
            (Resolved v2);
        Message ((if multiple w then "Images" else "Image") +:+ " saved.");
        Fire "image-editor-save-complete" VUndefined ] ++ rest ∧
    writes rest = [] ∧ messages rest = [] ∧
    count (is_fire "image-editor-save-complete") rest = 0.
Proof.
  paths; intros Hw; try discriminate Hw;
    do 2 eexists; eexists (_ :: _); (split; [reflexivity|]); done.
Qed.

(** C2: when the store write of a [save()] resolves, exactly one write was
    made, of [{[field]: _data}] at [(coll, doc)]; the message shown is
    ['Images saved.'] with [multiple] and ['Image saved.'] without; and
    ['image-editor-save-complete'] is fired exactly once. *)
Theorem save_write_resolved w :
  write_resolved (events (save w)) = true →
  writes (events (save w)) =
    [(coll w, doc w, {[ field w := data_val (_data w) ]})] ∧
  messages (events (save w)) =
    [if multiple w then "Images saved." else "Image saved."] ∧
  count (is_fire "image-editor-save-complete") (events (save w)) = 1.
Proof.
  intros Hw.
  destruct (save_write_resolved_shape w Hw) as (v1 & v2 & rest & -> & Hs & Hm & Hf).
  unfold writes, messages, count in *. cbn.
  rewrite Hs, Hm, Hf. by destruct (multiple w).
Qed.

(** The world of the end-to-end scenario: one optimised record held under
    the name [abc123], every collaborator answering with [answer]. *)
Definition abc123 : gmap string jsval :=
  <[ "name" := VStr "abc123" ]>
  (<[ "filename" := VStr "abc123.png" ]>
   {[ "optimized" := VStr "https://cdn/abc123-opt.png" ]}).

Definition scenario (multiple : bool) (answer : nat -> request -> outcome) : World :=
  mkWorld "cms" "home" "heroImg" multiple
          (Some {[ "abc123" := abc123 ]}) (Some true)
          {[ "abc123" := abc123 ]} answer 0.

Definition all_resolve : nat -> request -> outcome :=
  fun _ _ => Resolved VUndefined.

Lemma save_write_resolved_witness :
  write_resolved (events (save (scenario false all_resolve))) = true ∧
  writes (events (save (scenario false all_resolve))) =
    [("cms", "home", {[ "heroImg" := data_val (Some {[ "abc123" := abc123 ]}) ]})] ∧
  messages (events (save (scenario false all_resolve))) = ["Image saved."] ∧
  count (is_fire "image-editor-save-complete")
        (events (save (scenario false all_resolve))) = 1.
Proof.
  split; [reflexivity|].
  apply (save_write_resolved (scenario false all_resolve)). reflexivity.
Defined.

(** When the store write rejects with [e]: [e] is logged, the warning is
    shown, nothing is fired, and [save()] settles as [hide()] does, so
    [e] does not reach the caller. *)
Lemma save_write_rejected w e :
  write_rejected e (events (save w)) →
  logged (events (save w)) = [e] ∧
  warnings (events (save w)) = ["Sorry, an unexpected error occured!"] ∧
  count (is_fire "image-editor-save-complete") (events (save w)) = 0 ∧
  ∃ t, events (save w) = t ++ [Req SpinnerHide (result (save w))].
Proof.
  assert (Hend : ∃ t, events (save w) = t ++ [Req SpinnerHide (result (save w))]).
  { destruct (save_ends_with_hide w) as (t & Ht & _). eauto. }
  revert Hend. paths; intros Hend (c & d & data & Hin); cbn in Hin;
    repeat (destruct Hin as [Hin|Hin]; try discriminate Hin); try done.
  by injection Hin as _ _ _ <-.
Qed.

(** C4: every [save()] calls the spinner's [hide()] exactly once, and that
    call is the last thing it does, on each of its paths. *)
Theorem save_hides_once w :
  count is_hide (events (save w)) = 1 ∧
  ∃ t o, events (save w) = t ++ [Req SpinnerHide o] ∧ count is_hide t = 0.
Proof.
  destruct (save_ends_with_hide w) as (t & Ht & Hc). split.
  - rewrite Ht. unfold count in *. rewrite List.filter_app, length_app, Hc.
    reflexivity.
  - eauto.
Qed.

(** A store that refuses the write. *)
Definition write_fails : nat -> request -> outcome :=
  fun _ r =>
    match r with
    | ServicesSet _ _ _ => Rejected (VStr "permission-denied")
    | _ => Resolved VUndefined
    end.

(** C3: on a failing write the code logs the error, fires nothing and
    resolves, but the warning it shows reads ['... error occured!'], not the
    claim's ['... error occurred!']. *)
Theorem save_failure_warning_text :
  events (save (scenario false write_fails)) =
    [ Req (SpinnerShow "Saving...") (Resolved VUndefined);
      Req (ServicesSet "cms" "home"
             {[ "heroImg" := data_val (Some {[ "abc123" := abc123 ]}) ]})
          (Rejected (VStr "permission-denied"));
      ConsoleError (VStr "permission-denied");
      Req (Warn "Sorry, an unexpected error occured!") (Resolved VUndefined);
      Req SpinnerHide (Resolved VUndefined) ] ∧
  result (save (scenario false write_fails)) = Resolved VUndefined ∧
  ¬ In "Sorry, an unexpected error occurred!"
       (warnings (events (save (scenario false write_fails)))).
Proof.
  split; [reflexivity|]. split; [reflexivity|].
  cbn. intros [H|[]]. discriminate H.
Qed.

(** ** delete(name) and deleteAll() *)

Lemma delete_ends_with_hide name w :
  ∃ t, events (delete name w) = t ++ [Req SpinnerHide (result (delete name w))] ∧
       count is_hide t = 0.
Proof. paths; all_but_last. Qed.

Lemma deleteAll_ends_with_hide w :
  ∃ t, events (deleteAll w) = t ++ [Req SpinnerHide (result (deleteAll w))] ∧
       count is_hide t = 0.
Proof. paths; all_but_last. Qed.

(** The uploader is asked at most once, and exactly once when the spinner
    could be shown. *)
Lemma delete_asks_uploader_once name w v :
  oracle w (requests w) (SpinnerShow ("Deleting " +:+ name +:+ " image...")) = Resolved v →
  ∃ o, List.filter (fun e => match e with Req (UploaderDelete _) _ => true | _ => false end)
                   (events (delete name w)) = [Req (UploaderDelete name) o].
Proof. run. intros ->. cbn. settle; eauto. Qed.

(** An uploader that resolves [delete(name)] with the record it removed,
    as its interface promises. *)
Definition uploader_returns_record : nat -> request -> outcome :=
  fun _ r =>
    match r with
    | UploaderDelete _ => Resolved (VObj abc123)
    | _ => Resolved VUndefined
    end.

(** C5: a successful [delete('abc123')] does not hand the deleted record
    to its caller: the uploader resolves with the record, the method
    resolves with what [hide()] resolves with. *)
Theorem delete_drops_the_record :
  events (delete "abc123" (scenario false uploader_returns_record)) =
    [ Req (SpinnerShow "Deleting abc123 image...") (Resolved VUndefined);
      Req (UploaderDelete "abc123") (Resolved (VObj abc123));
      Message "abc123 image deleted.";
      Req Schedule (Resolved VUndefined);
      Req SpinnerHide (Resolved VUndefined) ] ∧
  result (delete "abc123" (scenario false uploader_returns_record)) =
    Resolved VUndefined ∧
  result (delete "abc123" (scenario false uploader_returns_record)) ≠
    Resolved (VObj abc123).
Proof. split; [reflexivity|]. split; [reflexivity|]. discriminate. Qed.

(** The two deletions, to speak about both at once. *)
Inductive deletion : Type :=
| DeleteOne (name : string)
| DeleteEvery.

Definition run_deletion (d : deletion) : M outcome :=
  match d with
  | DeleteOne name => delete name
  | DeleteEvery => deleteAll
  end.

(** The spinner's [hide()] was called and resolved. *)
Definition hide_resolved (t : list event) : bool :=
  existsb (fun e => match e with
                    | Req SpinnerHide (Resolved _) => true
                    | _ => false
                    end) t.

Lemma deletion_ends_with_hide d w :
  ∃ t, events (run_deletion d w) = t ++ [Req SpinnerHide (result (run_deletion d w))] ∧
       count is_hide t = 0.
Proof.
  destruct d; [apply delete_ends_with_hide | apply deleteAll_ends_with_hide].
Qed.

Lemma no_hide_not_resolved t : count is_hide t = 0 → hide_resolved t = false.
Proof.
  unfold count, hide_resolved. induction t as [|e t IH]; [done|].
  cbn. destruct e as [[] []| | | |]; cbn; try done.
Qed.

(** C9: [delete(name)] and [deleteAll()] resolve whenever their [hide()]
    resolves, whatever the other collaborators did: the value returned in
    [finally] replaces any error of the body and of the catch branch. *)
Theorem deletion_never_rejects d w :
  hide_resolved (events (run_deletion d w)) = true →
  ∃ v, result (run_deletion d w) = Resolved v ∧
       In (Req SpinnerHide (Resolved v)) (events (run_deletion d w)).
Proof.
  destruct (deletion_ends_with_hide d w) as (t & Ht & Hc).
  rewrite Ht. unfold hide_resolved. rewrite existsb_app.
  fold (hide_resolved t). rewrite (no_hide_not_resolved t Hc). cbn.
  destruct (result (run_deletion d w)) as [v|e]; [|done].
  intros _. exists v. split; [done|]. apply in_or_app. right. by left.
Qed.

(** An uploader that fails together with a [warn()] that fails. *)
Definition uploader_and_warn_fail : nat -> request -> outcome :=
  fun _ r =>
    match r with
    | UploaderDelete _ | UploaderDeleteAll => Rejected (VStr "storage/unknown")
    | Warn _ => Rejected (VStr "toast failed")
    | _ => Resolved VUndefined
    end.

Lemma deletion_never_rejects_witness :
  hide_resolved
    (events (run_deletion (DeleteOne "abc123")
               (scenario true uploader_and_warn_fail))) = true ∧
  ∃ v, result (run_deletion (DeleteOne "abc123")
                 (scenario true uploader_and_warn_fail)) = Resolved v ∧
       In (Req SpinnerHide (Resolved v))
          (events (run_deletion (DeleteOne "abc123")
                     (scenario true uploader_and_warn_fail))).
Proof.
  split; [reflexivity|].
  apply (deletion_never_rejects (DeleteOne "abc123")
           (scenario true uploader_and_warn_fail)).
  reflexivity.
Defined.

(** ** The 'file-deleted' handler *)

(** C6: on a ['file-deleted'] report for [name] the handler makes one
    request, [deleteField] at [(coll, doc)] on the path [field.name]; it
    makes no [set] request and does not wait for the promise. *)
Theorem fileDeleted_deletes_field name w :
  __fileDeleted name w =
    (Normal, tick w,
     [Req (ServicesDeleteField (coll w) (doc w) (field w +:+ "." +:+ name))
          (oracle w (requests w)
             (ServicesDeleteField (coll w) (doc w) (field w +:+ "." +:+ name)))]) ∧
  writes (events (__fileDeleted name w)) = [].
Proof. split; reflexivity. Qed.

Example fileDeleted_scenario :
  events (__fileDeleted "abc123" (scenario false all_resolve)) =
    [Req (ServicesDeleteField "cms" "home" "heroImg.abc123") (Resolved VUndefined)].
Proof. reflexivity. Qed.

(** ** The save button *)

(** Two invocations of the click handler, one after the other. *)
Definition two_clicks : M (outcome * outcome) :=
  fun w =>
    let '(o1, w1, t1) := __saveBtnClicked w in
    let '(o2, w2, t2) := __saveBtnClicked w1 in
    ((o1, o2), w2, t1 ++ t2).

(** What the handler itself adds once [save()] has settled. *)
Definition click_epilogue (o : outcome) : list event :=
  match o with
  | Resolved _ => []
  | Rejected e => if strict_eq_str e "click debounced" then [] else [ConsoleError e]
  end.

Lemma click_debounced w :
  oracle w (requests w) Clicked = Rejected (VStr "click debounced") →
  __saveBtnClicked w =
    (Resolved VUndefined, tick w, [Req Clicked (Rejected (VStr "click debounced"))]).
Proof. run. intros ->. reflexivity. Qed.

Lemma click_failed w e :
  oracle w (requests w) Clicked = Rejected e →
  strict_eq_str e "click debounced" = false →
  __saveBtnClicked w =
    (Resolved VUndefined, tick w, [Req Clicked (Rejected e); ConsoleError e]).
Proof. run. intros -> He. cbn. rewrite He. reflexivity. Qed.

Lemma click_accepted w v :
  oracle w (requests w) Clicked = Resolved v →
  __saveBtnClicked w =
    (Resolved VUndefined, after (save (tick w)),
     Req Clicked (Resolved v) :: events (save (tick w))
       ++ click_epilogue (result (save (tick w)))).
Proof.
  unfold __saveBtnClicked, async, try_catch, and_then, await at 1, call.
  intros ->. cbn [tick]. unfold await.
  destruct (save _) as [[[v'|e] w'] t] eqn:Hs; cbn.
  - by rewrite app_nil_r.
  - destruct (strict_eq_str e "click debounced"); cbn;
      by rewrite ?app_nil_r, <- ?app_assoc.
Qed.

Lemma save_shows_saving_once w :
  count (is_show "Saving...") (events (save w)) = 1.
Proof. paths; reflexivity. Qed.

Lemma save_warns_at_most_once w :
  count is_warn (events (save w)) ≤ 1.
Proof. paths; cbn; lia. Qed.

Lemma click_epilogue_quiet o :
  count (is_show "Saving...") (click_epilogue o) = 0 ∧
  count is_warn (click_epilogue o) = 0.
Proof.
  destruct o as [v|e]; [done|]. cbn.
  by destruct (strict_eq_str e "click debounced").
Qed.

Lemma count_app p t1 t2 : count p (t1 ++ t2) = count p t1 + count p t2.
Proof. unfold count. by rewrite List.filter_app, length_app. Qed.

Lemma two_clicks_events w :
  events (two_clicks w) =
    events (__saveBtnClicked w) ++
    events (__saveBtnClicked (after (__saveBtnClicked w))).
Proof.
  unfold two_clicks, events, after.
  destruct (__saveBtnClicked w) as [[o1 w1] t1]. cbn.
  by destruct (__saveBtnClicked w1) as [[o2 w2] t2].
Qed.

Lemma click_accepted_saves_once w v :
  oracle w (requests w) Clicked = Resolved v →
  count (is_show "Saving...") (events (__saveBtnClicked w)) = 1.
Proof.
  intros H. rewrite (click_accepted w v H). unfold events at 1. cbn [snd].
  change (Req Clicked (Resolved v) :: ?t) with ([Req Clicked (Resolved v)] ++ t).
  rewrite !count_app, save_shows_saving_once.
  by destruct (click_epilogue_quiet (result (save (tick w)))) as [-> _].
Qed.

Lemma click_debounced_saves_nothing w :
  oracle w (requests w) Clicked = Rejected (VStr "click debounced") →
  count (is_show "Saving...") (events (__saveBtnClicked w)) = 0.
Proof. intros H. by rewrite (click_debounced w H). Qed.

(** C7: of two clicks of which the base element's [clicked()] lets one
    through and rejects the other as ['click debounced'], exactly one runs
    [save()]; the debounced one does nothing but return; any other error
    reaching the handler is logged with [console.error] and no warning is
    added for it. *)
Theorem saveBtnClicked_debounce w v e :
  let w1 := after (__saveBtnClicked w) in
  (oracle w (requests w) Clicked = Resolved v ∧
   oracle w1 (requests w1) Clicked = Rejected (VStr "click debounced")) ∨
  (oracle w (requests w) Clicked = Rejected (VStr "click debounced") ∧
   oracle w1 (requests w1) Clicked = Resolved v) →
  strict_eq_str e "click debounced" = false →
  count (is_show "Saving...") (events (two_clicks w)) = 1 ∧
  (∀ w', oracle w' (requests w') Clicked = Rejected (VStr "click debounced") →
         __saveBtnClicked w' =
           (Resolved VUndefined, tick w',
            [Req Clicked (Rejected (VStr "click debounced"))])) ∧
  (∀ w', oracle w' (requests w') Clicked = Rejected e →
         __saveBtnClicked w' =
           (Resolved VUndefined, tick w', [Req Clicked (Rejected e); ConsoleError e])) ∧
  (∀ w' v', oracle w' (requests w') Clicked = Resolved v' →
            result (save (tick w')) = Rejected e →
            result (__saveBtnClicked w') = Resolved VUndefined ∧
            events (__saveBtnClicked w') =
              Req Clicked (Resolved v') :: events (save (tick w')) ++ [ConsoleError e]).
Proof.
  intros w1 Hclicks He. repeat split.
  - rewrite two_clicks_events, count_app. fold w1.
    destruct Hclicks as [[H1 H2]|[H1 H2]].
    + by rewrite (click_accepted_saves_once w v H1),
                 (click_debounced_saves_nothing w1 H2).
    + by rewrite (click_debounced_saves_nothing w H1),
                 (click_accepted_saves_once w1 v H2).
  - apply click_debounced.
  - intros w' Hw'. by apply click_failed.
  - rewrite (click_accepted w' v' H). reflexivity.
  - rewrite (click_accepted w' v' H). unfold events at 1. cbn [snd].
    rewrite H0. cbn. rewrite He. reflexivity.
Qed.

(** A [clicked()] that lets the first click through and rejects the ones
    that follow as debounced. *)
Definition debounce_after_first : nat -> request -> outcome :=
  fun n r =>
    match r, n with
    | Clicked, O => Resolved VUndefined
    | Clicked, _ => Rejected (VStr "click debounced")
    | _, _ => Resolved VUndefined
    end.

Lemma saveBtnClicked_debounce_witness :
  let w := scenario false debounce_after_first in
  let w1 := after (__saveBtnClicked w) in
  oracle w (requests w) Clicked = Resolved VUndefined ∧
  oracle w1 (requests w1) Clicked = Rejected (VStr "click debounced") ∧
  strict_eq_str (VStr "boom") "click debounced" = false ∧
  count (is_show "Saving...") (events (two_clicks w)) = 1.
Proof.
  intros w w1. split; [reflexivity|]. split; [reflexivity|]. split; [reflexivity|].
  apply (saveBtnClicked_debounce w VUndefined (VStr "boom")).
  - left. split; reflexivity.
  - reflexivity.
Defined.

(** ** getData() and the held record set *)

Lemma save_writes_held_data w x :
  In x (writes (events (save w))) →
  x = (coll w, doc w, {[ field w := data_val (_data w) ]}).
Proof. paths; cbn; intuition. Qed.

Lemma methods_keep__data w name :
  _data (after (save w)) = _data w ∧
  _data (after (delete name w)) = _data w ∧
  _data (after (deleteAll w)) = _data w ∧
  _data (after (__saveBtnClicked w)) = _data w ∧
  _data (after (__fileDeleted name w)) = _data w ∧
  _data (after (getData w)) = _data w.
Proof.
  repeat split; paths; try reflexivity.
  all: by destruct (strict_eq_str _ "click debounced").
Qed.

Lemma fileDataChanged_assigns detail w :
  _data (after (__fileDataChanged detail w)) = detail.
Proof.
  unfold __fileDataChanged, set__data, after. cbn.
  by destruct (bool_decide _).
Qed.

(** A fresh element whose uploader has just taken a record for which no
    ['data-changed'] notification has been delivered yet. *)
Definition behind : World :=
  uploader_holds {[ "abc123" := abc123 ]}
    (after (initialise (created "cms" "home" ∅ all_resolve))).

(** C10: [getData()] returns the uploader's record set, leaves the world as
    it was and gives the same answer whatever [_data] holds; [save()]
    writes the held [_data], which only [__fileDataChanged] assigns; the two
    can differ. *)
Theorem getData_is_the_uploaders w name detail :
  getData w = (uploader_data w, w, [UploaderGetData]) ∧
  (∀ d, result (getData (assign__data d w)) = result (getData w)) ∧
  (∀ x, In x (writes (events (save w))) →
        x = (coll w, doc w, {[ field w := data_val (_data w) ]})) ∧
  (_data (after (save w)) = _data w ∧
   _data (after (delete name w)) = _data w ∧
   _data (after (deleteAll w)) = _data w ∧
   _data (after (__saveBtnClicked w)) = _data w ∧
   _data (after (__fileDeleted name w)) = _data w ∧
   _data (after (getData w)) = _data w) ∧
  _data (after (__fileDataChanged detail w)) = detail ∧
  (result (getData behind) = {[ "abc123" := abc123 ]} ∧
   _data behind = Some ∅ ∧
   writes (events (save behind)) = [("cms", "home", {[ "images" := VObj ∅ ]})]).
Proof.
  split; [reflexivity|]. split; [reflexivity|].
  split; [apply save_writes_held_data|].
  split; [apply methods_keep__data|].
  split; [apply fileDataChanged_assigns|].
  repeat split; reflexivity.
Qed.

(** ** The 'image-editor-ready-changed' event *)

(** The event [__readyChanged] fires for a value. *)
Definition ready_event (ready : bool) : event :=
  Fire "image-editor-ready-changed" (VObj {[ "value" := VBool ready ]}).

(** The claim's wording, on the successive values of the readiness
    computation: a value is announced when it differs from the one held
    ([None] before the first computation). *)
Fixpoint transitions (held : option bool) (values : list bool) : list bool :=
  match values with
  | [] => []
  | r :: rest =>
      if bool_decide (held = Some r) then transitions (Some r) rest
      else r :: transitions (Some r) rest
  end.

(** How many values differ from their predecessor. *)
Fixpoint flips (held : bool) (values : list bool) : nat :=
  match values with
  | [] => 0
  | r :: rest => (if Bool.eqb held r then 0 else 1) + flips r rest
  end.

Lemma ready_changes_event b t :
  ready_changes (ready_event b :: t) = b :: ready_changes t.
Proof. reflexivity. Qed.

Lemma set__data_ready d w :
  _ready (after (set__data d w)) = Some (__computeReady d).
Proof.
  unfold set__data, after. cbn.
  destruct (bool_decide (_ready w = Some (__computeReady d))) eqn:Hd; cbn; [|done].
  by apply bool_decide_eq_true in Hd.
Qed.

Lemma set__data_events d w :
  events (set__data d w) =
    ready_event <$> transitions (_ready w) [__computeReady d].
Proof.
  unfold set__data, events. cbn.
  by destruct (bool_decide (_ready w = Some (__computeReady d))).
Qed.

Lemma set__data_normal d w : result (set__data d w) = Normal.
Proof.
  unfold set__data, result. cbn.
  by destruct (bool_decide (_ready w = Some (__computeReady d))).
Qed.

Lemma transitions_cons held r rest :
  transitions held (r :: rest) =
    transitions held [r] ++ transitions (Some r) rest.
Proof. cbn. by destruct (bool_decide (held = Some r)). Qed.

Lemma deliver_events details : ∀ w,
  events (deliver details w) =
    ready_event <$> transitions (_ready w) (__computeReady <$> details).
Proof.
  induction details as [|d rest IH]; intros w; [reflexivity|].
  cbn [deliver fmap list_fmap]. unfold __fileDataChanged, and_then.
  pose proof (set__data_events d w) as He.
  pose proof (set__data_normal d w) as Hn.
  pose proof (set__data_ready d w) as Hr.
  destruct (set__data d w) as [[c w1] t1]. cbn in He, Hn, Hr. subst c.
  specialize (IH w1). destruct (deliver rest w1) as [[c2 w2] t2].
  unfold events in *. cbn [snd] in *. rewrite He, IH, Hr.
  rewrite (transitions_cons (_ready w)). by rewrite fmap_app.
Qed.

Lemma ready_changes_fmap l : ready_changes (ready_event <$> l) = l.
Proof.
  induction l as [|b l IH]; [reflexivity|].
  cbn [fmap list_fmap]. by rewrite ready_changes_event, IH.
Qed.

(** An announced value differs from the one held, and two values
    announced in a row differ. *)
Lemma transitions_head held values b :
  head (transitions held values) = Some b → held ≠ Some b.
Proof.
  revert held. induction values as [|r rest IH]; intros held; [done|].
  cbn. destruct (bool_decide (held = Some r)) eqn:Hd.
  - apply bool_decide_eq_true in Hd. subst held. intros Hh.
    specialize (IH (Some r) Hh). done.
  - apply bool_decide_eq_false in Hd. cbn. by intros [= <-].
Qed.

Lemma transitions_alternate values : ∀ held i a b,
  transitions held values !! i = Some a →
  transitions held values !! S i = Some b →
  a ≠ b.
Proof.
  induction values as [|r rest IH]; intros held i a b; [done|].
  cbn. destruct (bool_decide (held = Some r)); [apply IH|].
  destruct i as [|i]; cbn.
  - intros [= <-] Hb Heq. subst b.
    apply (transitions_head (Some r) rest r); [|done].
    by destruct (transitions (Some r) rest).
  - apply IH.
Qed.

Lemma transitions_length held values :
  length (transitions (Some held) values) = flips held values.
Proof.
  revert held. induction values as [|r rest IH]; intros held; [done|].
  cbn [transitions flips]. case_bool_decide as Hd.
  - injection Hd as ->. by rewrite Bool.eqb_reflx, IH.
  - cbn [length]. rewrite IH. destruct held, r; done.
Qed.


(** C8: from the first computation on, through any run of ['data-changed']
    notifications, ['image-editor-ready-changed'] is fired once for the
    first value and once for every later value that differs from its
    predecessor, each time with the new value, so no two events in a row
    carry the same value. *)
Theorem ready_changed_once_per_transition
    c d uploader (o : nat -> request -> outcome)
    (details : list (option FileRecordSet)) :
  let t := events ((initialise >>> deliver details) (created c d uploader o)) in
  let values := __computeReady <$> details in
  t = ready_event <$> transitions None (false :: values) ∧
  ready_changes t = false :: transitions (Some false) values ∧
  length (ready_changes t) = 1 + flips false values ∧
  (∀ i a b, ready_changes t !! i = Some a →
            ready_changes t !! S i = Some b → a ≠ b).
Proof.
  intros t values.
  assert (Ht : t = ready_event <$> transitions None (false :: values)).
  { subst t values.
    exact (deliver_events (Some ∅ :: details) (created c d uploader o)). }
  assert (Hc : ready_changes t = false :: transitions (Some false) values).
  { rewrite Ht. by rewrite ready_changes_fmap. }
  split; [done|]. split; [done|]. split.
  - rewrite Hc. cbn. by rewrite transitions_length.
  - rewrite Ht, ready_changes_fmap. apply transitions_alternate.
Qed.


(** * Further properties of the code *)

(** ** Readiness under changes of the record set *)

Lemma computeReady_true_iff (files : FileRecordSet) :
  __computeReady (Some files) = true ↔
  files ≠ ∅ ∧ map_Forall (fun _ r => js_in "optimized" r = true) files.
Proof.
  rewrite computeReady_some. unfold map_Forall.
  split; intros [Hne Hall]; (split; [done|]); intros name r Hr;
    apply js_in_spec; eauto.
Qed.

(** X1: putting a record under [name] (new or replacing) gives a ready set
    exactly when the record has the ['optimized'] key and the other
    records, if there are any, were ready among themselves. *)
Theorem computeReady_insert (files : FileRecordSet) name r :
  __computeReady (Some (<[name := r]> files)) =
    js_in "optimized" r &&
    (Nat.eqb (size (base.delete name files)) 0 ||
     __computeReady (Some (base.delete name files))).
Proof.
  apply Bool.eq_iff_eq_true.
  rewrite andb_true_iff, orb_true_iff, Nat.eqb_eq, map_size_empty_iff.
  rewrite !computeReady_true_iff.
  rewrite <- (insert_delete_eq files name r).
  rewrite (map_Forall_insert _ (base.delete name files)) by apply lookup_delete_eq.
  split.
  - intros [_ [Hr Hall]]. split; [done|].
    destruct (decide (base.delete name files = ∅)); [by left|by right].
  - intros [Hr Hrest]. split; [apply insert_non_empty|]. split; [done|].
    destruct Hrest as [->|[_ Hall]]; [apply map_Forall_empty|done].
Qed.

(** X2: removing a record from a ready set leaves it ready, unless the
    record was the last one: then the set is empty and not ready. *)
Theorem computeReady_delete (files : FileRecordSet) name :
  __computeReady (Some files) = true →
  __computeReady (Some (base.delete name files)) =
    negb (Nat.eqb (size (base.delete name files)) 0).
Proof.
  rewrite computeReady_true_iff. intros [_ Hall].
  destruct (Nat.eqb_spec (size (base.delete name files)) 0) as [Hz|Hnz]; cbn.
  - apply map_size_empty_iff in Hz. by rewrite Hz.
  - apply computeReady_true_iff. split.
    + by apply map_size_non_empty_iff.
    + by apply map_Forall_delete.
Qed.

Lemma computeReady_delete_witness :
  __computeReady (Some {[ "abc123" := abc123 ]}) = true ∧
  __computeReady (Some (base.delete "abc123" ({[ "abc123" := abc123 ]} : FileRecordSet))) =
    negb (Nat.eqb (size (base.delete "abc123" ({[ "abc123" := abc123 ]} : FileRecordSet))) 0).
Proof.
  split; [vm_compute; reflexivity|].
  apply (computeReady_delete {[ "abc123" := abc123 ]} "abc123").
  vm_compute; reflexivity.
Defined.

(** X3: two ready sets merged are ready. *)
Theorem computeReady_union (a b : FileRecordSet) :
  __computeReady (Some a) = true →
  __computeReady (Some b) = true →
  __computeReady (Some (a ∪ b)) = true.
Proof.
  rewrite !computeReady_true_iff. intros [Ha Halla] [_ Hallb]. split.
  - intros Hempty. by apply map_positive_l in Hempty.
  - by apply map_Forall_union_2.
Qed.

Lemma computeReady_union_witness :
  __computeReady (Some {[ "abc123" := abc123 ]}) = true ∧
  __computeReady (Some {[ "b" := {[ "optimized" := VNull ]} ]}) = true ∧
  __computeReady (Some (({[ "abc123" := abc123 ]} : FileRecordSet) ∪
                        {[ "b" := {[ "optimized" := VNull ]} ]})) = true.
Proof.
  split; [vm_compute; reflexivity|]. split; [vm_compute; reflexivity|].
  apply (computeReady_union {[ "abc123" := abc123 ]}
           {[ "b" := {[ "optimized" := VNull ]} ]});
    vm_compute; reflexivity.
Defined.

(** X4: readiness looks at nothing but the presence of the ['optimized']
    key: replacing a record by one that agrees with it on that presence
    (other fields changed, or another value under ['optimized']) does not
    change the answer. *)
Theorem computeReady_same_presence (files : FileRecordSet) name r r' :
  files !! name = Some r →
  js_in "optimized" r' = js_in "optimized" r →
  __computeReady (Some (<[name := r']> files)) = __computeReady (Some files).
Proof.
  intros Hr Hsame.
  rewrite computeReady_insert, Hsame, <- computeReady_insert.
  by rewrite insert_id.
Qed.

Lemma computeReady_same_presence_witness :
  ({[ "abc123" := abc123 ]} : FileRecordSet) !! "abc123" = Some abc123 ∧
  js_in "optimized" (<[ "optimized" := VStr "" ]> (<[ "index" := VNum 3 ]> abc123)) =
    js_in "optimized" abc123 ∧
  __computeReady
    (Some (<[ "abc123" := <[ "optimized" := VStr "" ]> (<[ "index" := VNum 3 ]> abc123) ]>
             ({[ "abc123" := abc123 ]} : FileRecordSet))) =
  __computeReady (Some {[ "abc123" := abc123 ]}).
Proof.
  split; [vm_compute; reflexivity|]. split; [vm_compute; reflexivity|].
  apply (computeReady_same_presence {[ "abc123" := abc123 ]} "abc123" abc123);
    vm_compute; reflexivity.
Defined.

(** ** The names built from strings *)

Lemma length_append (s t : string) :
  String.length (s +:+ t) = String.length s + String.length t.
Proof. induction s as [|a s IH]; simpl; [done|by rewrite IH]. Qed.

Lemma append_cancel_r (t : string) : ∀ s1 s2 : string,
  s1 +:+ t = s2 +:+ t → s1 = s2.
Proof.
  induction s1 as [|a s1 IH]; intros [|b s2] H.
  - done.
  - apply (f_equal String.length) in H.
    rewrite !length_append in H. simpl in H. lia.
  - apply (f_equal String.length) in H.
    rewrite !length_append in H. simpl in H. lia.
  - injection H as -> H. f_equal. by apply IH.
Qed.

(** X5: the temporary collection never has the name of the live collection,
    and different live collections get different temporary ones. *)
Theorem computeTempColl_apart :
  (∀ c, __computeTempColl c ≠ c) ∧
  (∀ c1 c2, __computeTempColl c1 = __computeTempColl c2 → c1 = c2).
Proof.
  unfold __computeTempColl. split.
  - intros c H. apply (f_equal String.length) in H.
    rewrite length_append in H. simpl in H. lia.
  - intros c1 c2. apply append_cancel_r.
Qed.



(** ** The three busy operations side by side *)

Inductive operation : Type :=
| OpSave
| OpDelete (name : string)
| OpDeleteAll.

Definition run_operation (op : operation) : M outcome :=
  match op with
  | OpSave => save
  | OpDelete name => delete name
  | OpDeleteAll => deleteAll
  end.

(** The text each operation hands to [spinner.show] (lines 259, 220, 237). *)
Definition busy_text (op : operation) : string :=
  match op with
  | OpSave => "Saving..."
  | OpDelete name => "Deleting " +:+ name +:+ " image..."
  | OpDeleteAll => "Deleting images..."
  end.

(** The text each operation hands to [warn] (lines 268, 227, 244). *)
Definition warning_text (op : operation) : string :=
  match op with
  | OpSave => "Sorry, an unexpected error occured!"
  | OpDelete _ => "Sorry, an error occured while trying to delete the image!"
  | OpDeleteAll => "Sorry, an error occured while trying to delete images!"
  end.

Definition is_any_show (e : event) : bool :=
  match e with Req (SpinnerShow _) _ => true | _ => false end.


Definition is_uploader (e : event) : bool :=
  match e with
  | Req (UploaderDelete _) _ | Req UploaderDeleteAll _ | UploaderGetData => true
  | _ => false
  end.


Definition schedule_rejected (t : list event) : bool :=
  existsb (fun e => match e with Req Schedule (Rejected _) => true | _ => false end) t.

Definition uploader_resolved (t : list event) : bool :=
  existsb (fun e => match e with
                    | Req (UploaderDelete _) (Resolved _)
                    | Req UploaderDeleteAll (Resolved _) => true
                    | _ => false
                    end) t.

Ltac bracket :=
  eexists;
  match goal with
  | |- ∃ mid : list event, _ :: ?l = _ ∧ _ => exists (removelast l)
  end;
  repeat split; reflexivity.

Lemma operation_shape op w :
  ∃ o mid,
    events (run_operation op w) =
      Req (SpinnerShow (busy_text op)) o
        :: mid ++ [Req SpinnerHide (result (run_operation op w))] ∧
    count is_hide mid = 0 ∧ count is_any_show mid = 0.
Proof. destruct op; unfold run_operation, busy_text; paths; bracket. Qed.

Lemma not_hide_in t o : count is_hide t = 0 → ¬ In (Req SpinnerHide o) t.
Proof.
  unfold count. induction t as [|e t IH]; [by intros _ []|].
  cbn. destruct (is_hide e) eqn:He; [done|].
  intros Hc [->|Hin]; [done|by apply IH].
Qed.

(** X7: each of [save()], [delete(name)] and [deleteAll()] begins by
    asking the spinner to show its own text and ends by asking it to hide;
    the spinner is asked nothing else in between. *)
Theorem operation_brackets_with_spinner op w :
  ∃ o mid o',
    events (run_operation op w) =
      Req (SpinnerShow (busy_text op)) o :: mid ++ [Req SpinnerHide o'] ∧
    count is_hide mid = 0 ∧ count is_any_show mid = 0.
Proof.
  destruct (operation_shape op w) as (o & mid & H & Hh & Hs).
  exists o, mid, (result (run_operation op w)). done.
Qed.

(** X8: an operation rejects exactly when its [spinner.hide()] rejects,
    and with the same error; a failed [hide()] turns an otherwise
    successful operation into a rejected one. *)
Theorem operation_rejects_iff_hide_rejects op w e :
  result (run_operation op w) = Rejected e ↔
  In (Req SpinnerHide (Rejected e)) (events (run_operation op w)).
Proof.
  destruct (operation_shape op w) as (o & mid & -> & Hh & _). split.
  - intros ->. right. apply in_or_app. right. by left.
  - intros [Hin|Hin]; [discriminate Hin|].
    apply in_app_or in Hin as [Hin|[Hin|[]]].
    + by apply not_hide_in in Hin.
    + by injection Hin.
Qed.



(** X11: when [spinner.show] rejects, the operation does none of its work:
    the error is logged, the warning is requested and the spinner is asked
    to hide, and nothing else happens. *)
Theorem operation_show_rejected op w e :
  oracle w (requests w) (SpinnerShow (busy_text op)) = Rejected e →
  events (run_operation op w) =
    [ Req (SpinnerShow (busy_text op)) (Rejected e);
      ConsoleError e;
      Req (Warn (warning_text op))
          (oracle w (S (requests w)) (Warn (warning_text op)));
      Req SpinnerHide (oracle w (S (S (requests w))) SpinnerHide) ].
Proof.
  destruct op; unfold run_operation, busy_text, warning_text; run;
    intros ->; reflexivity.
Qed.

(** A spinner that cannot be shown. *)
Definition show_fails : nat -> request -> outcome :=
  fun _ r =>
    match r with
    | SpinnerShow _ => Rejected (VStr "spinner detached")
    | _ => Resolved VUndefined
    end.

Lemma operation_show_rejected_witness :
  oracle (scenario false show_fails) (requests (scenario false show_fails))
         (SpinnerShow (busy_text (OpDelete "abc123"))) =
    Rejected (VStr "spinner detached") ∧
  events (run_operation (OpDelete "abc123") (scenario false show_fails)) =
    [ Req (SpinnerShow "Deleting abc123 image...") (Rejected (VStr "spinner detached"));
      ConsoleError (VStr "spinner detached");
      Req (Warn "Sorry, an error occured while trying to delete the image!")
          (Resolved VUndefined);
      Req SpinnerHide (Resolved VUndefined) ].
Proof.
  split; [reflexivity|].
  apply (operation_show_rejected (OpDelete "abc123") (scenario false show_fails)).
  reflexivity.
Defined.

(** ** More on save() and the deletions *)

(** X12: [save()] shows its confirmation and fires
    ['image-editor-save-complete'] only when the store write resolved:
    without a resolved write there is no message and no event. *)
Theorem save_announces_only_resolved_writes w :
  messages (events (save w)) =
    (if write_resolved (events (save w))
     then [(if multiple w then "Images" else "Image") +:+ " saved."] else []) ∧
  count (is_fire "image-editor-save-complete") (events (save w)) =
    (if write_resolved (events (save w)) then 1 else 0).
Proof. paths; split; reflexivity. Qed.

(** X13: when [schedule()] rejects after a resolved write, the same
    [save()] has shown its confirmation, fired
    ['image-editor-save-complete'], and then logs the error and shows the
    warning as well. *)
Theorem save_schedule_rejected w :
  schedule_rejected (events (save w)) = true →
  write_resolved (events (save w)) = true ∧
  messages (events (save w)) =
    [(if multiple w then "Images" else "Image") +:+ " saved."] ∧
  count (is_fire "image-editor-save-complete") (events (save w)) = 1 ∧
  length (logged (events (save w))) = 1 ∧
  warnings (events (save w)) = ["Sorry, an unexpected error occured!"].
Proof. paths; intros H; try discriminate H; repeat split; reflexivity. Qed.

(** A [schedule()] that fails. *)
Definition schedule_fails : nat -> request -> outcome :=
  fun _ r =>
    match r with
    | Schedule => Rejected (VStr "cancelled")
    | _ => Resolved VUndefined
    end.

Lemma save_schedule_rejected_witness :
  schedule_rejected (events (save (scenario true schedule_fails))) = true ∧
  write_resolved (events (save (scenario true schedule_fails))) = true ∧
  messages (events (save (scenario true schedule_fails))) = ["Images saved."] ∧
  count (is_fire "image-editor-save-complete")
        (events (save (scenario true schedule_fails))) = 1 ∧
  length (logged (events (save (scenario true schedule_fails)))) = 1 ∧
  warnings (events (save (scenario true schedule_fails))) =
    ["Sorry, an unexpected error occured!"].
Proof.
  split; [reflexivity|].
  apply (save_schedule_rejected (scenario true schedule_fails)). reflexivity.
Defined.

(** The confirmation a deletion shows (lines 222, 239). *)
Definition deleted_text (d : deletion) : string :=
  match d with
  | DeleteOne name => name +:+ " image deleted."
  | DeleteEvery => "Images deleted."
  end.

(** X14: a deletion shows its confirmation exactly when the uploader's
    promise resolved, and asks the uploader at most once. *)
Theorem deletion_confirms_only_resolved d w :
  messages (events (run_deletion d w)) =
    (if uploader_resolved (events (run_deletion d w)) then [deleted_text d] else []) ∧
  count is_uploader (events (run_deletion d w)) ≤ 1.
Proof.
  destruct d; unfold run_deletion, deleted_text; paths; cbn; split; done || lia.
Qed.

(** ** More on the save button *)

(** X15: the click handler never rejects: whatever [clicked()] and
    [save()] do, its promise resolves with undefined. *)
Theorem saveBtnClicked_always_resolves w :
  result (__saveBtnClicked w) = Resolved VUndefined.
Proof.
  paths; try reflexivity.
  all: by destruct (strict_eq_str _ "click debounced").
Qed.

(** X16: the handler tells a debounced click from a failure by the error
    value alone: when [save()] itself rejects with the string
    ['click debounced'], the handler logs nothing either. *)
Theorem saveBtnClicked_mistakes_failure_for_debounce w v :
  oracle w (requests w) Clicked = Resolved v →
  result (save (tick w)) = Rejected (VStr "click debounced") →
  events (__saveBtnClicked w) = Req Clicked (Resolved v) :: events (save (tick w)) ∧
  logged (events (__saveBtnClicked w)) = logged (events (save (tick w))).
Proof.
  intros Hc Hs. rewrite (click_accepted w v Hc). unfold events at 1 3. cbn [snd].
  rewrite Hs. cbn. by rewrite app_nil_r.
Qed.

(** A spinner whose [hide()] rejects with the debounce string. *)
Definition hide_rejects_as_debounce : nat -> request -> outcome :=
  fun _ r =>
    match r with
    | SpinnerHide => Rejected (VStr "click debounced")
    | _ => Resolved VUndefined
    end.

Lemma saveBtnClicked_mistakes_failure_for_debounce_witness :
  let w := scenario false hide_rejects_as_debounce in
  oracle w (requests w) Clicked = Resolved VUndefined ∧
  result (save (tick w)) = Rejected (VStr "click debounced") ∧
  events (__saveBtnClicked w) =
    Req Clicked (Resolved VUndefined) :: events (save (tick w)) ∧
  logged (events (__saveBtnClicked w)) = logged (events (save (tick w))).
Proof.
  intros w. split; [reflexivity|]. split; [reflexivity|].
  apply (saveBtnClicked_mistakes_failure_for_debounce w VUndefined); reflexivity.
Defined.

(** ** Sequences of notifications and calls *)

(** What can happen to the element: the uploader's two notifications, a
    click on the save button, and calls of the public methods. *)
Inductive action : Type :=
| DataChanged (detail : option FileRecordSet)
| FileDeleted (name : string)
| SaveClicked
| CallSave
| CallDelete (name : string)
| CallDeleteAll
| CallGetData.

Definition act (a : action) (w : World) : World * list event :=
  match a with
  | DataChanged detail =>
      (after (__fileDataChanged detail w), events (__fileDataChanged detail w))
  | FileDeleted name =>
      (after (__fileDeleted name w), events (__fileDeleted name w))
  | SaveClicked => (after (__saveBtnClicked w), events (__saveBtnClicked w))
  | CallSave => (after (save w), events (save w))
  | CallDelete name => (after (delete name w), events (delete name w))
  | CallDeleteAll => (after (deleteAll w), events (deleteAll w))
  | CallGetData => (after (getData w), events (getData w))
  end.

Fixpoint run_actions (acts : list action) (w : World) : World * list event :=
  match acts with
  | [] => (w, [])
  | a :: rest =>
      let '(w1, t1) := act a w in
      let '(w2, t2) := run_actions rest w1 in
      (w2, t1 ++ t2)
  end.

(** The detail of the last ['data-changed'] among [acts], [held] if there
    is none. *)
Definition last_detail (acts : list action) (held : option FileRecordSet)
    : option FileRecordSet :=
  fold_left (fun d a => match a with DataChanged d' => d' | _ => d end) acts held.

Definition same_config (w w' : World) : Prop :=
  coll w' = coll w ∧ doc w' = doc w ∧ field w' = field w ∧
  multiple w' = multiple w.

(** A store request aimed at the element's own document and field. *)
Definition on_target (w : World) (e : event) : Prop :=
  match e with
  | Req (ServicesSet c d data) _ =>
      c = coll w ∧ d = doc w ∧ ∃ held, data = {[ field w := data_val held ]}
  | Req (ServicesDeleteField c d path) _ =>
      c = coll w ∧ d = doc w ∧ ∃ name, path = field w +:+ "." +:+ name
  | _ => True
  end.

Lemma on_target_config w w' e : same_config w w' → on_target w' e → on_target w e.
Proof.
  intros (Hc & Hd & Hf & _). unfold on_target.
  destruct e as [[] ?| | | |]; rewrite ?Hc, ?Hd, ?Hf; done.
Qed.

Ltac on_targets :=
  repeat match goal with
  | |- Forall _ [] => constructor
  | |- Forall _ (_ :: _) => constructor
  | |- on_target _ _ => cbn; eauto
  end.

Lemma act_keeps_config a w : same_config w (act a w).1.
Proof.
  destruct a; unfold act, same_config, __fileDataChanged, set__data; cbn [fst].
  1: { unfold after; cbn. by destruct (bool_decide _). }
  all: paths; try done.
  all: by destruct (strict_eq_str _ "click debounced").
Qed.

Lemma act_on_target a w : Forall (on_target w) (act a w).2.
Proof.
  destruct a; unfold act, __fileDataChanged, set__data; cbn [snd].
  1: { unfold events; cbn. destruct (bool_decide _); cbn; on_targets. }
  all: paths; try (destruct (strict_eq_str _ "click debounced"); cbn);
    on_targets.
Qed.

Lemma act__data a w :
  _data (act a w).1 = last_detail [a] (_data w).
Proof.
  destruct a; unfold act; cbn [fst last_detail fold_left].
  1: apply fileDataChanged_assigns.
  all: try (by destruct (methods_keep__data w name) as (? & ? & ? & ? & ? & ?)).
  all: by destruct (methods_keep__data w "") as (? & ? & ? & ? & ? & ?).
Qed.

Lemma same_config_trans w1 w2 w3 :
  same_config w1 w2 → same_config w2 w3 → same_config w1 w3.
Proof. unfold same_config. intros (-> & -> & -> & ->) (-> & -> & -> & ->). done. Qed.

Lemma run_actions_invariant acts : ∀ w,
  same_config w (run_actions acts w).1 ∧
  Forall (on_target w) (run_actions acts w).2 ∧
  _data (run_actions acts w).1 = last_detail acts (_data w).
Proof.
  induction acts as [|a rest IH]; intros w.
  - cbn. unfold same_config. by repeat split.
  - cbn [run_actions].
    pose proof (act_keeps_config a w) as Hc.
    pose proof (act_on_target a w) as Ht.
    pose proof (act__data a w) as Hd.
    destruct (act a w) as [w1 t1]. cbn [fst snd] in Hc, Ht, Hd.
    destruct (IH w1) as (Hc' & Ht' & Hd').
    destruct (run_actions rest w1) as [w2 t2]. cbn [fst snd] in *.
    split; [by eapply same_config_trans|]. split.
    + apply Forall_app. split; [done|].
      eapply Forall_impl; [exact Ht'|]. intros e. by apply on_target_config.
    + rewrite Hd', Hd. reflexivity.
Qed.

(** X17: through any sequence of notifications, clicks and method calls,
    every request the element sends to the document store is aimed at its
    own [(coll, doc)]: a [set] carries the single key [field], a
    [deleteField] a path that starts with [field] and a dot. *)
Theorem every_store_request_on_target acts w :
  Forall (on_target w) (run_actions acts w).2.
Proof. apply run_actions_invariant. Qed.

(** X18: through any such sequence the element keeps [coll], [doc],
    [field] and [multiple] as they were, and [_data] is the detail of the
    last ['data-changed'] notification (the initial [_data] if none came):
    no method call, click or ['file-deleted'] report changes it. *)
Theorem data_is_last_notified_detail acts w :
  same_config w (run_actions acts w).1 ∧
  _data (run_actions acts w).1 = last_detail acts (_data w).
Proof. split; apply run_actions_invariant. Qed.

(** X19: a [save()] after any such sequence, once its spinner is shown,
    makes exactly one write, of the detail last notified, whatever was
    called in between (earlier saves and deletions included). *)
Theorem save_writes_last_notified_detail acts w v :
  let w' := (run_actions acts w).1 in
  oracle w' (requests w') (SpinnerShow "Saving...") = Resolved v →
  writes (events (save w')) =
    [(coll w, doc w, {[ field w := data_val (last_detail acts (_data w)) ]})].
Proof.
  intros w' Hshow.
  destruct (run_actions_invariant acts w) as ((Hc & Hd & Hf & _) & _ & Hdata).
  fold w' in Hc, Hd, Hf, Hdata. rewrite <- Hc, <- Hd, <- Hf, <- Hdata.
  clearbody w'. revert Hshow. run. intros ->. cbn. settle; reflexivity.
Qed.

Lemma save_writes_last_notified_detail_witness :
  let acts := [ DataChanged (Some {[ "abc123" := abc123 ]}); CallSave;
                CallDelete "abc123"; FileDeleted "abc123";
                DataChanged (Some ∅); SaveClicked; CallGetData ] in
  let w := created "cms" "home" ∅ all_resolve in
  let w' := (run_actions acts w).1 in
  oracle w' (requests w') (SpinnerShow "Saving...") = Resolved VUndefined ∧
  writes (events (save w')) = [("cms", "home", {[ "images" := VObj ∅ ]})].
Proof.
  intros acts w w'. split; [reflexivity|].
  apply (save_writes_last_notified_detail acts w VUndefined). reflexivity.
Defined.

Example run_actions_scenario :
  (run_actions
     [ DataChanged (Some {[ "abc123" := abc123 ]}); CallSave; FileDeleted "abc123" ]
     (after (initialise (created "cms" "home" ∅ all_resolve)))).2 =
    [ ready_event true;
      Req (SpinnerShow "Saving...") (Resolved VUndefined);
      Req (ServicesSet "cms" "home"
             {[ "images" := data_val (Some {[ "abc123" := abc123 ]}) ]})
          (Resolved VUndefined);
      Message "Image saved.";
      Fire "image-editor-save-complete" VUndefined;
      Req Schedule (Resolved VUndefined);
      Req SpinnerHide (Resolved VUndefined);
      Req (ServicesDeleteField "cms" "home" "images.abc123") (Resolved VUndefined) ].
Proof. vm_compute. reflexivity. Qed.
